(** * Worker thread of rustyscript (src/src/worker.rs)

    A shallow embedding of the generic worker: the query/response protocol,
    the dispatcher loops of the blocking ([sync_worker]) and cooperative
    ([async_worker]) adapters, the handle table, the worker-side channel
    operations ([send], [receive], [send_and_await], [join], [stop]), the
    constructor's initialisation handshake and its panic-message
    sanitisation, and the public operations of [DefaultWorker]. *)

From Stdlib Require Import Ascii.
From stdpp Require Import base gmap list strings.

Set Warnings "-register-all".

(* ------------------------------------------------------------------ *)
(** ** Rust values the worker passes around *)

(** [Result<A, E>]. *)
Inductive Result (A E : Type) : Type :=
| Ok (a : A)
| Err (e : E).
Arguments Ok {A E} a.
Arguments Err {A E} e.

(** [crate::Error]: the variants the worker produces or forwards. *)
Module Error.
Inductive t : Type :=
| Runtime (msg : string)
| JsError (msg : string)
| JsonDecode (msg : string).
End Error.

(** A panic payload, as seen by [JoinHandle::join]'s [Box<dyn Any>]:
    a [String], a [&'static str], or anything else. *)
Inductive Payload : Type :=
| PString (s : string)
| PStr (s : string)
| POther.

(** [serde_json::Value]. *)
Inductive Value : Type :=
| VNull
| VBool (b : bool)
| VNumber (z : Z)
| VString (s : string)
| VArray (vs : list Value)
| VObject (kvs : list (string * Value)).

(** [deno_core::ModuleId] is a [usize]. *)
Abbreviation ModuleId := nat (only parsing).

(** [crate::Module]: a file name and its source. *)
Record Module : Type := mkModule {
  filename : string;
  contents : string
}.

(** [crate::ModuleHandle]; the worker only calls [handle.id()]. *)
Record ModuleHandle : Type := mkModuleHandle {
  id : ModuleId;
  module : Module
}.

(** [DefaultWorkerOptions]; the timeout is kept in milliseconds. *)
Record DefaultWorkerOptions : Type := mkOptions {
  default_entrypoint : option string;
  timeout : nat
}.

(** [DefaultWorkerQuery]. *)
Module Query.
Inductive t : Type :=
| Stop
| Eval (code : string)
| LoadMainModule (m : Module)
| LoadModule (m : Module)
| CallEntrypoint (mid : ModuleId) (args : list Value)
| CallFunction (mid : option ModuleId) (name : string) (args : list Value)
| GetValue (mid : option ModuleId) (name : string).
End Query.

(** [DefaultWorkerResponse]; [Ok] is the acknowledgement [Ok(())]. *)
Module Response.
Inductive t : Type :=
| Value (v : Value)
| ModuleId (mid : ModuleId)
| Ok
| Error (e : Error.t).
End Response.

(* ------------------------------------------------------------------ *)
(** ** A state monad that may unwind

    Code that runs on the worker thread threads a state and may panic. *)

Inductive Exit (A : Type) : Type :=
| Returns (a : A)
| Panics (p : Payload).
Arguments Returns {A} a.
Arguments Panics {A} p.

Definition M (S A : Type) : Type := S -> Exit (S * A).

Definition ret {S A} (a : A) : M S A := fun s => Returns (s, a).

Definition bind {S A B} (m : M S A) (k : A -> M S B) : M S B :=
  fun s => match m s with
           | Returns (s', a) => k a s'
           | Panics p => Panics p
           end.

Notation "x <- m ;; k" := (bind m (fun x => k))
  (at level 100, m at next level, right associativity).

(* ------------------------------------------------------------------ *)
(** ** The engine ([crate::Runtime] / [crate::AsyncRuntime])

    The engine is an external collaborator: the worker only calls these
    methods.  Each one may change the engine's state and may panic. *)

Class Runtime (R : Type) := {
  rt_new : DefaultWorkerOptions -> Exit (Result R Error.t);
  rt_eval : string -> M R (Result Value Error.t);
  rt_load_module : Module -> M R (Result ModuleHandle Error.t);
  rt_call_entrypoint : ModuleHandle -> list Value -> M R (Result Value Error.t);
  rt_call_function :
    option ModuleHandle -> string -> list Value -> M R (Result Value Error.t);
  rt_get_value : option ModuleHandle -> string -> M R (Result Value Error.t)
}.

Section Dispatcher.
Context {R : Type} `{Runtime R}.

(** [Self::Runtime = (crate::Runtime, HashMap<ModuleId, ModuleHandle>)]. *)
Definition RtState : Type := (R * gmap nat ModuleHandle)%type.

(** Run an engine method on the first component of the pair. *)
Definition on_runtime {A} (m : M R A) : M RtState A :=
  fun '(rt, modules) =>
    match m rt with
    | Returns (rt', a) => Returns ((rt', modules), a)
    | Panics p => Panics p
    end.

Definition modules_get (mid : ModuleId) : M RtState (option ModuleHandle) :=
  fun st => Returns (st, snd st !! mid).

Definition modules_insert (mid : ModuleId) (h : ModuleHandle) : M RtState unit :=
  fun '(rt, modules) => Returns ((rt, <[mid := h]> modules), tt).

Definition module_not_found : Error.t := Error.Runtime "Module not found".

(** [handle_query] (sync: worker.rs 314-390; async: 700-778, the same
    arms with [.await] and a [DashMap]). *)
Definition handle_query (q : Query.t) : M RtState Response.t :=
  match q with
  | Query.Stop => ret Response.Ok
  | Query.Eval code =>
      r <- on_runtime (rt_eval code) ;;
      match r with
      | Ok v => ret (Response.Value v)
      | Err e => ret (Response.Error e)
      end
  | Query.LoadMainModule m =>
      r <- on_runtime (rt_load_module m) ;;
      match r with
      | Ok handle =>
          let mid := id handle in
          _ <- modules_insert mid handle ;;
          ret (Response.ModuleId mid)
      | Err e => ret (Response.Error e)
      end
  | Query.LoadModule m =>
      r <- on_runtime (rt_load_module m) ;;
      match r with
      | Ok handle =>
          let mid := id handle in
          _ <- modules_insert mid handle ;;
          ret (Response.ModuleId mid)
      | Err e => ret (Response.Error e)
      end
  | Query.CallEntrypoint mid args =>
      oh <- modules_get mid ;;
      match oh with
      | Some handle =>
          r <- on_runtime (rt_call_entrypoint handle args) ;;
          match r with
          | Ok v => ret (Response.Value v)
          | Err e => ret (Response.Error e)
          end
      | None => ret (Response.Error module_not_found)
      end
  | Query.CallFunction omid name args =>
      match omid with
      | Some mid =>
          oh <- modules_get mid ;;
          match oh with
          | Some handle =>
              r <- on_runtime (rt_call_function (Some handle) name args) ;;
              match r with
              | Ok v => ret (Response.Value v)
              | Err e => ret (Response.Error e)
              end
          | None => ret (Response.Error module_not_found)
          end
      | None =>
          r <- on_runtime (rt_call_function None name args) ;;
          match r with
          | Ok v => ret (Response.Value v)
          | Err e => ret (Response.Error e)
          end
      end
  | Query.GetValue omid name =>
      match omid with
      | Some mid =>
          oh <- modules_get mid ;;
          match oh with
          | Some handle =>
              r <- on_runtime (rt_get_value (Some handle) name) ;;
              match r with
              | Ok v => ret (Response.Value v)
              | Err e => ret (Response.Error e)
              end
          | None => ret (Response.Error module_not_found)
          end
      | None =>
          r <- on_runtime (rt_get_value None name) ;;
          match r with
          | Ok v => ret (Response.Value v)
          | Err e => ret (Response.Error e)
          end
      end
  end.


(* ------------------------------------------------------------------ *)
(** ** Dispatcher loops *)

(** How a loop run ended: the thread returned, the thread panicked, or the
    thread is blocked in [rx.recv()] waiting for the next query. *)
Inductive LoopEnd : Type :=
| Finished
| Aborted (p : Payload)
| Waiting.

Record LoopResult : Type := mkLoopResult {
  lr_state : RtState;
  lr_sent : list Response.t;    (** responses sent, in order *)
  lr_rest : list Query.t;       (** queued queries never dequeued *)
  lr_end : LoopEnd
}.

Definition cons_sent (r : Response.t) (res : LoopResult) : LoopResult :=
  mkLoopResult (lr_state res) (r :: lr_sent res) (lr_rest res) (lr_end res).

(** The payload of [tx.send(..).unwrap()] when the receiver is gone. *)
Definition unwrap_send_err : Payload :=
  PString "called `Result::unwrap()` on an `Err` value: SendError { .. }".

(** The loop runs over the queries queued in the channel, [qs].
    [senders_alive]: some query sender (the worker's) still exists, so
    [rx.recv()] blocks on an empty queue instead of failing.
    [resp_open]: the worker still holds the response receiver, so
    [tx.send(response)] succeeds. *)

(** [SyncWorker::thread], the trait's default (worker.rs 206-216). *)
Fixpoint thread_default (st : RtState) (qs : list Query.t)
    (senders_alive resp_open : bool) : LoopResult :=
  match qs with
  | [] => mkLoopResult st [] [] (if senders_alive then Waiting else Finished)
  | msg :: qs' =>
      match handle_query msg st with
      | Panics p => mkLoopResult st [] qs' (Aborted p)
      | Returns (st', response) =>
          if resp_open
          then cons_sent response (thread_default st' qs' senders_alive resp_open)
          else mkLoopResult st' [] qs' (Aborted unwrap_send_err)
      end
  end.

(** [SyncWorker::thread] for [DefaultWorker] (worker.rs 393-411). *)
Fixpoint thread_sync (st : RtState) (qs : list Query.t)
    (senders_alive resp_open : bool) : LoopResult :=
  match qs with
  | [] => mkLoopResult st [] [] (if senders_alive then Waiting else Finished)
  | msg :: qs' =>
      match msg with
      | Query.Stop =>
          if resp_open
          then mkLoopResult st [Response.Ok] qs' Finished
          else mkLoopResult st [] qs' (Aborted unwrap_send_err)
      | _ =>
          match handle_query msg st with
          | Panics p => mkLoopResult st [] qs' (Aborted p)
          | Returns (st', response) =>
              if resp_open
              then cons_sent response (thread_sync st' qs' senders_alive resp_open)
              else mkLoopResult st' [] qs' (Aborted unwrap_send_err)
          end
      end
  end.

(** The [while let Some(msg) = rx.recv().await] loop of
    [AsyncWorker::thread] for [DefaultWorker] (worker.rs 790-797): a failed
    [tx.send] is logged and ends the loop, and the thread returns [Ok(())]. *)
Fixpoint thread_async (st : RtState) (qs : list Query.t)
    (senders_alive resp_open : bool) : LoopResult :=
  match qs with
  | [] => mkLoopResult st [] [] (if senders_alive then Waiting else Finished)
  | msg :: qs' =>
      match handle_query msg st with
      | Panics p => mkLoopResult st [] qs' (Aborted p)
      | Returns (st', response) =>
          if resp_open
          then cons_sent response (thread_async st' qs' senders_alive resp_open)
          else mkLoopResult st' [] qs' Finished
      end
  end.

(* ------------------------------------------------------------------ *)
(** ** The worker and its channels

    The worker ([InnerWorker]) holds the query sender and the response
    receiver; the thread holds the query receiver and the response sender,
    and drops both when it ends.  The thread runs when the caller blocks
    (in [receive] or [join]) until it blocks itself or ends. *)

(** What differs between the two adapters: the loop, and the text of the
    channel errors ([std::sync::mpsc] vs [tokio::sync::mpsc], and the
    async [receive]'s own message). *)
Record Adapter : Type := mkAdapter {
  ad_thread : RtState -> list Query.t -> bool -> bool -> LoopResult;
  ad_send_closed : string;
  ad_recv_closed : string
}.

Definition sync_adapter : Adapter :=
  mkAdapter thread_sync "sending on a closed channel" "receiving on a closed channel".

Definition async_adapter : Adapter :=
  mkAdapter thread_async "channel closed" "Channel closed".

Inductive Thread : Type :=
| TRunning (st : RtState)
| TDone
| TPanicked (p : Payload).

Record Sys : Type := mkSys {
  q_buf : list Query.t;       (** queries sent, not yet dequeued *)
  r_buf : list Response.t;    (** responses sent, not yet received *)
  thr : Thread
}.

Definition thread_alive (t : Thread) : bool :=
  match t with TRunning _ => true | _ => false end.

(** Let the thread run until it blocks on an empty query queue or ends. *)
Definition settle (ad : Adapter) (s : Sys) : Sys :=
  match thr s with
  | TRunning st =>
      let res := ad_thread ad st (q_buf s) true true in
      match lr_end res with
      | Waiting => mkSys (lr_rest res) (r_buf s ++ lr_sent res) (TRunning (lr_state res))
      | Finished => mkSys [] (r_buf s ++ lr_sent res) TDone
      | Aborted p => mkSys [] (r_buf s ++ lr_sent res) (TPanicked p)
      end
  | _ => s
  end.

(** [send]: [self.0.tx.send(query).map_err(|e| Error::Runtime(e.to_string()))]. *)
Definition send (ad : Adapter) (q : Query.t) (s : Sys) : Result Sys Error.t :=
  if thread_alive (thr s)
  then Ok (mkSys (q_buf s ++ [q]) (r_buf s) (thr s))
  else Err (Error.Runtime (ad_send_closed ad)).

(** [receive]: blocks until a response is there or the thread is gone;
    [None] is blocking forever. *)
Definition receive (ad : Adapter) (s : Sys) : option (Result Response.t Error.t * Sys) :=
  let s := settle ad s in
  match r_buf s with
  | r :: rs => Some (Ok r, mkSys (q_buf s) rs (thr s))
  | [] =>
      if thread_alive (thr s) then None
      else Some (Err (Error.Runtime (ad_recv_closed ad)), s)
  end.

(** [send_and_await]: [self.send(query)?; self.receive()]. *)
Definition send_and_await (ad : Adapter) (q : Query.t) (s : Sys)
    : option (Result Response.t Error.t * Sys) :=
  match send ad q s with
  | Err e => Some (Err e, s)
  | Ok s' => receive ad s'
  end.

(** [InnerWorker::join] (worker.rs 59-63); [None] is blocking forever. *)
Definition join (ad : Adapter) (s : Sys) : option (Result unit Error.t * Sys) :=
  let s := settle ad s in
  match thr s with
  | TRunning _ => None
  | TDone => Some (Ok tt, s)
  | TPanicked _ => Some (Err (Error.Runtime "Worker thread panicked"), s)
  end.

(** [DefaultWorker::stop] (sync 422-425, async 811-814):
    [self.send(DefaultWorkerQuery::Stop)?; self.0.join()]. *)
Definition stop (ad : Adapter) (s : Sys) : option (Result unit Error.t * Sys) :=
  match send ad Query.Stop s with
  | Err e => Some (Err e, s)
  | Ok s' => join ad s'
  end.

(* ------------------------------------------------------------------ *)
(** ** Public operations of [DefaultWorker]

    Both adapters decode the received response the same way
    (sync 429-545, async 818-929).  The sync operations call
    [send_and_await_sync], which the file does not define; it is taken to
    be [SyncWorker::send_and_await], as in the async adapter. *)

Definition unexpected_response : Error.t :=
  Error.Runtime "Unexpected response from the worker".

Section Operations.
(** The caller's result type [T] and [serde_json::from_value::<T>]. *)
Variable T : Type.
Variable from_value : Value -> Result T Error.t.

(** The match of [eval], [call_entrypoint], [call_function], [get_value]. *)
Definition expect_value (r : Response.t) : Result T Error.t :=
  match r with
  | Response.Value v => from_value v
  | Response.Error e => Err e
  | _ => Err unexpected_response
  end.

(** The match of [load_main_module] and [load_module]. *)
Definition expect_module_id (r : Response.t) : Result ModuleId Error.t :=
  match r with
  | Response.ModuleId mid => Ok mid
  | Response.Error e => Err e
  | _ => Err unexpected_response
  end.

(** [match self.send_and_await(query)? { ... }]. *)
Definition decode_with {A} (k : Response.t -> Result A Error.t)
    (o : option (Result Response.t Error.t * Sys)) : option (Result A Error.t * Sys) :=
  match o with
  | None => None
  | Some (Err e, s) => Some (Err e, s)
  | Some (Ok r, s) => Some (k r, s)
  end.

Definition eval (ad : Adapter) (code : string) (s : Sys) :=
  decode_with expect_value (send_and_await ad (Query.Eval code) s).

Definition load_main_module (ad : Adapter) (m : Module) (s : Sys) :=
  decode_with expect_module_id (send_and_await ad (Query.LoadMainModule m) s).

Definition load_module (ad : Adapter) (m : Module) (s : Sys) :=
  decode_with expect_module_id (send_and_await ad (Query.LoadModule m) s).

Definition call_entrypoint (ad : Adapter) (mid : ModuleId) (args : list Value) (s : Sys) :=
  decode_with expect_value (send_and_await ad (Query.CallEntrypoint mid args) s).

Definition call_function (ad : Adapter) (module_context : option ModuleId)
    (name : string) (args : list Value) (s : Sys) :=
  decode_with expect_value
    (send_and_await ad (Query.CallFunction module_context name args) s).

Definition get_value (ad : Adapter) (module_context : option ModuleId)
    (name : string) (s : Sys) :=
  decode_with expect_value (send_and_await ad (Query.GetValue module_context name) s).

End Operations.

(* ------------------------------------------------------------------ *)
(** ** Construction: the initialisation handshake *)

(** [SyncWorker::init_runtime] (worker.rs 304-312). *)
Definition init_runtime (options : DefaultWorkerOptions) : Exit (Result RtState Error.t) :=
  match rt_new options with
  | Returns (Ok rt) => Returns (Ok (rt, ∅))
  | Returns (Err e) => Returns (Err e)
  | Panics p => Panics p
  end.

(** What the spawned thread of the sync [new_inner] (worker.rs 247-262)
    sends on the init channel ([None]: the channel is dropped unsent), and
    the state of the thread afterwards. *)
Definition spawn_sync (options : DefaultWorkerOptions) : option (option Error.t) * Thread :=
  match init_runtime options with
  | Returns (Ok rt) => (Some None, TRunning rt)
  | Returns (Err e) => (Some (Some e), TDone)
  | Panics p => (None, TPanicked p)
  end.

(** The same for the async [new_inner] (worker.rs 639-659, with the start of
    [AsyncWorker::thread], 781-788): building the tokio runtime may fail
    first ([tokio_build]); an error of [AsyncRuntime::new] is returned by
    [thread] and sent by [init]'s caller. *)
Definition spawn_async (tokio_build : Result unit Error.t) (options : DefaultWorkerOptions)
    : option (option Error.t) * Thread :=
  match tokio_build with
  | Err e => (Some (Some e), TDone)
  | Ok _ =>
      match rt_new options with
      | Returns (Ok rt) => (Some None, TRunning (rt, ∅))
      | Returns (Err e) => (Some (Some e), TDone)
      | Panics p => (None, TPanicked p)
      end
  end.

(** [JoinHandle::join]: [None] while the thread still runs (blocks). *)
Definition join_handle (t : Thread) : option (Result unit Payload) :=
  match t with
  | TRunning _ => None
  | TDone => Some (Ok tt)
  | TPanicked p => Some (Err p)
  end.

(** [e.downcast_ref::<String>().cloned().or_else(|| e.downcast_ref::<&str>()...)]. *)
Definition downcast_text (p : Payload) : option string :=
  match p with
  | PString s => Some s
  | PStr s => Some s
  | POther => None
  end.

(** [char::is_whitespace] (the Unicode White_Space property), read on the
    UTF-8 bytes of a [String]: a char of one byte is whitespace if it is a
    tab, line feed, vertical tab, form feed, carriage return or space. *)
Definition is_whitespace1 (a : ascii) : bool :=
  let n := nat_of_ascii a in
  (Nat.leb 9 n && Nat.leb n 13) || Nat.eqb n 32.

(** Chars of two bytes: U+0085 (C2 85) and U+00A0 (C2 A0). *)
Definition is_whitespace2 (a b : ascii) : bool :=
  Nat.eqb (nat_of_ascii a) 194 &&
  (Nat.eqb (nat_of_ascii b) 133 || Nat.eqb (nat_of_ascii b) 160).

(** Chars of three bytes: U+1680 (E1 9A 80), U+2000 to U+200A
    (E2 80 80 to E2 80 8A), U+2028 (E2 80 A8), U+2029 (E2 80 A9),
    U+202F (E2 80 AF), U+205F (E2 81 9F) and U+3000 (E3 80 80).  No char
    of four bytes is whitespace. *)
Definition is_whitespace3 (a b c : ascii) : bool :=
  let a := nat_of_ascii a in
  let b := nat_of_ascii b in
  let c := nat_of_ascii c in
  (Nat.eqb a 225 && Nat.eqb b 154 && Nat.eqb c 128) ||
  (Nat.eqb a 226 && Nat.eqb b 128 &&
     ((Nat.leb 128 c && Nat.leb c 138) || Nat.eqb c 168 || Nat.eqb c 169 ||
      Nat.eqb c 175)) ||
  (Nat.eqb a 226 && Nat.eqb b 129 && Nat.eqb c 159) ||
  (Nat.eqb a 227 && Nat.eqb b 128 && Nat.eqb c 128).

(** Drop the whitespace chars at the start of [s]; [w1], [w2], [w3] test
    the first one, two or three bytes.  On valid UTF-8 the first bytes of
    [s] start a char, and a test holds exactly when that char has those
    bytes and is whitespace. *)
Fixpoint strip_leading (w1 : ascii -> bool) (w2 : ascii -> ascii -> bool)
    (w3 : ascii -> ascii -> ascii -> bool) (s : string) : string :=
  match s with
  | EmptyString => EmptyString
  | String a s1 =>
      if w1 a then strip_leading w1 w2 w3 s1 else
      match s1 with
      | EmptyString => s
      | String b s2 =>
          if w2 a b then strip_leading w1 w2 w3 s2 else
          match s2 with
          | EmptyString => s
          | String c s3 => if w3 a b c then strip_leading w1 w2 w3 s3 else s
          end
      end
  end.

(** Whether [s] starts with a char the tests accept. *)
Definition ws_head (w1 : ascii -> bool) (w2 : ascii -> ascii -> bool)
    (w3 : ascii -> ascii -> ascii -> bool) (s : string) : bool :=
  match s with
  | EmptyString => false
  | String a s1 =>
      w1 a ||
      match s1 with
      | EmptyString => false
      | String b s2 =>
          w2 a b ||
          match s2 with
          | EmptyString => false
          | String c _ => w3 a b c
          end
      end
  end.

(** The bytes of [s] in reverse order. *)
Fixpoint rev_str (s : string) : string :=
  match s with
  | EmptyString => EmptyString
  | String a s' => String.append (rev_str s') (String a EmptyString)
  end.

(** The whitespace tests read on reversed bytes: the last byte first. *)
Definition is_whitespace2_rev (b a : ascii) : bool := is_whitespace2 a b.

Definition is_whitespace3_rev (c b a : ascii) : bool := is_whitespace3 a b c.

(** [str::trim_start]. *)
Definition trim_start (s : string) : string :=
  strip_leading is_whitespace1 is_whitespace2 is_whitespace3 s.

(** [str::trim_end]: the same from the end, on the reversed bytes. *)
Definition trim_end (s : string) : string :=
  rev_str (strip_leading is_whitespace1 is_whitespace2_rev is_whitespace3_rev (rev_str s)).

(** [str::trim]. *)
Definition trim (s : string) : string := trim_end (trim_start s).

(** [s.split(pat).next()]: always [Some] of the text before the first
    occurrence of [pat] (the whole text if there is none). *)
Fixpoint split_first (pat s : string) : string :=
  match s with
  | EmptyString => EmptyString
  | String c s' => if String.prefix pat s then EmptyString else String c (split_first pat s')
  end.

Definition stack_backtrace : string := "Stack backtrace".

(** The message built on the "Parser crashed on startup" path
    (sync 281-299, async 677-695), from the result of [join]. *)
Definition startup_panic_message (j : Result unit Payload) : string :=
  let e := match j with
           | Err p => downcast_text p
           | Ok _ => None
           end in
  let e := match e with
           | Some e => e
           | None => "Could not start runtime thread"
           end in
  trim (split_first stack_backtrace e).

(** The constructor, given what the spawned thread did
    ([match init_rx.recv() { ... }]); [None] is blocking forever. *)
Definition new_inner (spawned : option (option Error.t) * Thread)
    : option (Result Sys Error.t) :=
  let '(init_msg, t) := spawned in
  match init_msg with
  | Some None => Some (Ok (mkSys [] [] t))
  | Some (Some e) => Some (Err e)
  | None =>
      match join_handle t with
      | None => None
      | Some j => Some (Err (Error.Runtime (startup_panic_message j)))
      end
  end.

Definition new_sync (options : DefaultWorkerOptions) : option (Result Sys Error.t) :=
  new_inner (spawn_sync options).

Definition new_async (tokio_build : Result unit Error.t) (options : DefaultWorkerOptions)
    : option (Result Sys Error.t) :=
  new_inner (spawn_async tokio_build options).

End Dispatcher.

(* ------------------------------------------------------------------ *)
(** ** Auxiliary predicates used in the statements *)

Definition is_stop (q : Query.t) : bool :=
  match q with Query.Stop => true | _ => false end.

Definition is_value (r : Response.t) : bool :=
  match r with Response.Value _ => true | _ => false end.

Definition is_module_id (r : Response.t) : bool :=
  match r with Response.ModuleId _ => true | _ => false end.

Definition is_error (r : Response.t) : bool :=
  match r with Response.Error _ => true | _ => false end.

(** [LoadMainModule m] rewritten as [LoadModule m]. *)
Definition demote (q : Query.t) : Query.t :=
  match q with Query.LoadMainModule m => Query.LoadModule m | _ => q end.

(** Rewrite the queries a loop left in the queue. *)
Definition map_rest (f : Query.t -> Query.t) {R : Type} (res : LoopResult (R:=R)) : LoopResult :=
  mkLoopResult (lr_state res) (lr_sent res) (map f (lr_rest res)) (lr_end res).

(** Whether [pat] occurs in [s]. *)
Fixpoint contains (pat s : string) : bool :=
  String.prefix pat s ||
  match s with
  | EmptyString => false
  | String _ s' => contains pat s'
  end.

(** Whether the first char of [s] is whitespace ([char::is_whitespace]). *)
Definition starts_with_whitespace (s : string) : bool :=
  ws_head is_whitespace1 is_whitespace2 is_whitespace3 s.

(** Whether the last char of [s] is whitespace. *)
Definition ends_with_whitespace (s : string) : bool :=
  ws_head is_whitespace1 is_whitespace2_rev is_whitespace3_rev (rev_str s).

Section Sequential.
Context {R : Type} `{Runtime R}.

(** Handling the queries one after the other, threading the state. *)
Fixpoint run_queries (qs : list Query.t) : M RtState (list Response.t) :=
  match qs with
  | [] => ret []
  | q :: qs' =>
      r <- handle_query q ;;
      rs <- run_queries qs' ;;
      ret (r :: rs)
  end.

End Sequential.

(* ------------------------------------------------------------------ *)
(** ** A concrete engine, to run the model on

    Its state is the next module id.  Evaluating ["boom"] panics with a
    multi-line message followed by a backtrace, as does construction with
    a zero timeout. *)

Definition nl : string := String (ascii_of_nat 10) EmptyString.

Definition demo_panic_text : string :=
  String.append "engine failed"
    (String.append nl
      (String.append "while booting"
        (String.append nl (String.append "Stack backtrace:" (String.append nl "   0: main"))))).

#[global] Instance demo_runtime : Runtime nat := {
  rt_new o := match timeout o with
              | 0 => Panics (PString demo_panic_text)
              | _ => Returns (Ok 0)
              end;
  rt_eval code := fun n =>
    if String.eqb code "boom" then Panics (PString demo_panic_text)
    else Returns (n, Ok (VString code));
  rt_load_module m := fun n => Returns (S n, Ok (mkModuleHandle n m));
  rt_call_entrypoint h args := fun n => Returns (n, Ok (VNumber 1));
  rt_call_function oh name args := fun n => Returns (n, Ok VNull);
  rt_get_value oh name := fun n => Returns (n, Ok VNull)
}.

Definition demo_options : DefaultWorkerOptions := mkOptions None 5000.

Definition demo_module : Module := mkModule "m.js" "export function load(){return 1}".

(** A freshly constructed worker. *)
Definition fresh : Sys := mkSys [] [] (TRunning (0, ∅)).

Definition json_value (v : Value) : Result Value Error.t := Ok v.

Example new_sync_fresh : new_sync demo_options = Some (Ok fresh).
Proof. reflexivity. Qed.

Example load_then_call :
  match load_module sync_adapter demo_module fresh with
  | Some (Ok mid, s) => call_entrypoint Value json_value sync_adapter mid [] s
  | _ => None
  end = Some (Ok (VNumber 1), mkSys [] [] (TRunning (1, <[0 := mkModuleHandle 0 demo_module]> ∅))).
Proof. reflexivity. Qed.

Definition fresh_state : RtState (R:=nat) := (0, ∅).

(* ------------------------------------------------------------------ *)
(** ** Helpers of src/src/utilities.rs *)

(** The error of a callback called with fewer arguments than it declares. *)
Definition invalid_arg_count : Error.t := Error.Runtime "Invalid number of arguments".

Section Callbacks.
(** [J] is [serde_json::Error]; [json_to_string] is its [e.to_string()] and
    [json_error] the [From<serde_json::Error>] conversion applied by [?].
    [C] and [E] are the types of the body's [Result<C, E>]. *)
Variables J C E : Type.
Variable json_to_string : J -> string.
Variable json_error : J -> Error.t.
(** The [From<E>] conversion applied by [$body?]. *)
Variable from_err : E -> Error.t.
(** [serde_json::Value::try_from] on the body's result, its error given by
    its text. *)
Variable try_from : C -> Result Value string.

(** A callback as both macros expand it: one
    [let $arg: $arg_ty = match args.next() { ... };] per declared parameter,
    each with its own type [A] and decoder [serde_json::from_value::<A>],
    the later ones in the scope of the earlier ones, then the body. *)
Inductive Callback : Type :=
| Body (result : Result C E)
| Param {A : Type} (from_value : Value -> Result A J) (k : A -> Callback).

(** Running the expansion on the argument slice: each parameter takes the
    next argument ([args.next()]); [None] returns
    [Err(Error::Runtime("Invalid number of arguments"))]; [decode_err] is
    what a [from_value] error becomes; then [let result = $body?;] and the
    serialisation of [result] with [map_err(|e| Error::Runtime(e.to_string()))]. *)
Fixpoint run_callback (decode_err : J -> Error.t) (cb : Callback) (args : list Value)
    : Result Value Error.t :=
  match cb with
  | Body result =>
      match result with
      | Err e => Err (from_err e)
      | Ok result =>
          match try_from result with
          | Ok v => Ok v
          | Err e => Err (Error.Runtime e)
          end
      end
  | Param from_value k =>
      match args with
      | [] => Err invalid_arg_count
      | arg :: rest =>
          match from_value arg with
          | Err e => Err (decode_err e)
          | Ok a => run_callback decode_err (k a) rest
          end
      end
  end.

(** The closure built by [sync_callback!] (utilities.rs 220-234): a
    [from_value] error goes through [?]. *)
Definition sync_callback (cb : Callback) (args : list Value) : Result Value Error.t :=
  run_callback json_error cb args.

(** The future built by [async_callback!] (utilities.rs 249-263), polled
    to completion: a [from_value] error becomes
    [Error::Runtime(e.to_string())]. *)
Definition async_callback (cb : Callback) (args : list Value) : Result Value Error.t :=
  run_callback (fun e => Error.Runtime (json_to_string e)) cb args.

(** [cb] declares [n] parameters. *)
Inductive has_arity : Callback -> nat -> Prop :=
| arity_body (r : Result C E) : has_arity (Body r) 0
| arity_param {A : Type} (fv : Value -> Result A J) (k : A -> Callback) (n : nat) :
    (forall a, has_arity (k a) n) -> has_arity (Param fv k) (S n).

(** [cb] takes the arguments [args] in order, each decoded by its
    parameter's [from_value], and is left with [cb']. *)
Inductive consumes : Callback -> list Value -> Callback -> Prop :=
| consumes_nil (cb : Callback) : consumes cb [] cb
| consumes_cons {A : Type} (fv : Value -> Result A J) (k : A -> Callback)
    (arg : Value) (rest : list Value) (a : A) (cb' : Callback) :
    fv arg = Ok a -> consumes (k a) rest cb' -> consumes (Param fv k) (arg :: rest) cb'.

End Callbacks.

Arguments Body {J C E} result.
Arguments Param {J C E A} from_value k.

Section Validate.
(** [Runtime::new(Default::default())] and [runtime.load_modules(&module,
    vec![])]; [Hd] is the handle type. *)
Variables Rt Hd : Type.
Variable runtime_new : Result Rt Error.t.
Variable load_modules : Module -> Rt -> Result Hd Error.t.

(** [validate] (utilities.rs 66-75). *)
Definition validate (javascript : string) : Result bool Error.t :=
  let m := mkModule "test.js" javascript in
  match runtime_new with
  | Err e => Err e
  | Ok runtime =>
      match load_modules m runtime with
      | Ok _ => Ok true
      | Err (Error.Runtime _) => Ok false
      | Err (Error.JsError _) => Ok false
      | Err e => Err e
      end
  end.

End Validate.

(** The [test_callback] test's callback [|a: i64, b: i64| Ok(a + b)], and a
    callback [|n: i64, s: String|] with parameters of two types; the
    [serde_json] error is its text. *)
Definition i64_from_value (v : Value) : Result Z string :=
  match v with
  | VNumber z => Ok z
  | _ => Err "invalid type: expected i64"
  end.

Definition string_from_value (v : Value) : Result string string :=
  match v with
  | VString s => Ok s
  | _ => Err "invalid type: expected a string"
  end.

Definition i64_try_from (z : Z) : Result Value string := Ok (VNumber z).

Definition value_try_from (v : Value) : Result Value string := Ok v.

Definition add_cb : Callback string Z Error.t :=
  Param i64_from_value (fun a => Param i64_from_value (fun b => Body (Ok (a + b)%Z))).

Definition pair_cb : Callback string Value Error.t :=
  Param i64_from_value (fun n =>
    Param string_from_value (fun s => Body (Ok (VArray [VNumber n; VString s])))).

(** U+3000 IDEOGRAPHIC SPACE, as its UTF-8 bytes. *)
Definition ideographic_space : string :=
  String (ascii_of_nat 227) (String (ascii_of_nat 128) (String (ascii_of_nat 128) EmptyString)).

(* ================================================================== *)
(** * Properties *)

(** ** Helper lemmas *)

Section Helpers.
Context {R : Type} `{Runtime R}.

Lemma handle_query_demote (q : Query.t) (st : RtState) :
  handle_query (demote q) st = handle_query q st.
Proof. destruct q; reflexivity. Qed.

Lemma is_stop_demote (q : Query.t) : is_stop (demote q) = is_stop q.
Proof. destruct q; reflexivity. Qed.

(** The blocking loop on a [Stop] at the head of the queue. *)
Lemma thread_sync_stop_head (st : RtState) (rest : list Query.t) (alive : bool) :
  thread_sync st (Query.Stop :: rest) alive true
  = mkLoopResult st [Response.Ok] rest Finished.
Proof. reflexivity. Qed.

(** The blocking loop on a query other than [Stop] at the head. *)
Lemma thread_sync_cons (st : RtState) (q : Query.t) (qs : list Query.t) (alive open : bool) :
  is_stop q = false ->
  thread_sync st (q :: qs) alive open =
  match handle_query q st with
  | Panics p => mkLoopResult st [] qs (Aborted p)
  | Returns (st', response) =>
      if open then cons_sent response (thread_sync st' qs alive open)
      else mkLoopResult st' [] qs (Aborted unwrap_send_err)
  end.
Proof. destruct q; simpl; congruence. Qed.

End Helpers.

(** ** C1 *)

(** C1 (code defect): after dequeuing [Stop], the blocking loop sends one
    acknowledgement and exits, leaving later queries unprocessed; the
    cooperative loop instead answers [Stop] with [Ok(())] like any query and
    keeps going, so it processes a query queued after [Stop], and
    [stop()] on a fresh cooperative worker never returns. *)
Lemma async_loop_runs_past_stop :
  thread_sync fresh_state [Query.Stop; Query.Eval "1+1"] true true
    = mkLoopResult fresh_state [Response.Ok] [Query.Eval "1+1"] Finished /\
  thread_async fresh_state [Query.Stop; Query.Eval "1+1"] true true
    = mkLoopResult fresh_state [Response.Ok; Response.Value (VString "1+1")] [] Waiting /\
  stop sync_adapter fresh = Some (Ok tt, mkSys [] [Response.Ok] TDone) /\
  stop async_adapter fresh = None.
Proof. repeat split; reflexivity. Qed.

(** ** C9 *)

(** C9: the dispatcher handles [LoadMainModule m] exactly as
    [LoadModule m]: the same engine call, the same table insertion and the
    same [ModuleId] response; replacing every [LoadMainModule] by
    [LoadModule] changes nothing in either loop. *)
Theorem load_main_module_same_as_load_module {R : Type} `{Runtime R} :
  (forall m : Module,
      handle_query (Query.LoadMainModule m) = handle_query (Query.LoadModule m)) /\
  (forall (st : RtState) (qs : list Query.t) (alive open : bool),
      thread_sync st (map demote qs) alive open
      = map_rest demote (thread_sync st qs alive open)) /\
  (forall (st : RtState) (qs : list Query.t) (alive open : bool),
      thread_async st (map demote qs) alive open
      = map_rest demote (thread_async st qs alive open)).
Proof.
  split; [intros m; reflexivity|].
  split.
  - intros st qs alive open. revert st.
    induction qs as [|q qs IH]; intros st; [reflexivity|].
    destruct (is_stop q) eqn:Hs.
    + destruct q; try discriminate Hs. destruct open; reflexivity.
    + simpl map. rewrite !thread_sync_cons by (rewrite ?is_stop_demote; exact Hs).
      rewrite handle_query_demote.
      destruct (handle_query q st) as [[st' r]|p];
        [destruct open; [rewrite IH|]|]; reflexivity.
  - intros st qs alive open. revert st.
    induction qs as [|q qs IH]; intros st; [reflexivity|].
    simpl. rewrite handle_query_demote.
    destruct (handle_query q st) as [[st' r]|p];
      [destruct open; [rewrite IH|]|]; reflexivity.
Qed.

(** ** C10 *)

(** C10: when the worker's response receiver is gone, the blocking loop
    (both the trait's default and the [DefaultWorker] one) panics on the
    [unwrap] of the first response it sends, having sent nothing, while the
    cooperative loop ends normally. *)
Theorem sync_loop_panics_without_receiver {R : Type} `{Runtime R}
    (st : RtState) (q : Query.t) (qs : list Query.t) (alive : bool)
    (st' : RtState) (r : Response.t) :
  handle_query q st = Returns (st', r) ->
  lr_end (thread_sync st (q :: qs) alive false) = Aborted unwrap_send_err /\
  lr_sent (thread_sync st (q :: qs) alive false) = [] /\
  lr_end (thread_default st (q :: qs) alive false) = Aborted unwrap_send_err /\
  lr_end (thread_async st (q :: qs) alive false) = Finished.
Proof.
  intros Hq.
  destruct (is_stop q) eqn:Hs.
  - destruct q; try discriminate Hs. simpl. auto.
  - rewrite thread_sync_cons by exact Hs. simpl. rewrite Hq. auto.
Qed.

Lemma sync_loop_panics_without_receiver_witness :
  handle_query (Query.Eval "1+1") fresh_state
    = Returns (fresh_state, Response.Value (VString "1+1")) /\
  lr_end (thread_sync fresh_state [Query.Eval "1+1"] true false) = Aborted unwrap_send_err /\
  lr_sent (thread_sync fresh_state [Query.Eval "1+1"] true false) = [] /\
  lr_end (thread_default fresh_state [Query.Eval "1+1"] true false) = Aborted unwrap_send_err /\
  lr_end (thread_async fresh_state [Query.Eval "1+1"] true false) = Finished.
Proof.
  split; [reflexivity|].
  apply (sync_loop_panics_without_receiver fresh_state (Query.Eval "1+1") [] true
           fresh_state (Response.Value (VString "1+1"))).
  reflexivity.
Defined.

(** ** C3 *)

Section Fifo.
Context {R : Type} `{Runtime R}.

Lemma run_queries_cons (q : Query.t) (qs : list Query.t) (st st' : RtState)
    (rs : list Response.t) :
  run_queries (q :: qs) st = Returns (st', rs) ->
  exists st1 r rs',
    handle_query q st = Returns (st1, r) /\
    run_queries qs st1 = Returns (st', rs') /\ rs = r :: rs'.
Proof.
  cbn [run_queries]. unfold bind.
  destruct (handle_query q st) as [[st1 r]|p]; [|discriminate].
  destruct (run_queries qs st1) as [[st2 rs']|p] eqn:E; [|discriminate].
  unfold ret. intros Heq. injection Heq as <- <-.
  exists st1, r, rs'. auto.
Qed.

End Fifo.

(** C3: if the engine does not panic while handling them, queries queued
    before the first [Stop] get one response each, in order, the n-th being
    [handle_query] of the n-th query on the state left by the previous ones;
    then [Stop] gets exactly one acknowledgement [Ok(())] and the blocking
    loop ends, leaving what was queued after [Stop] untouched. *)
Theorem sync_loop_fifo {R : Type} `{Runtime R} (st : RtState) (qs rest : list Query.t)
    (alive : bool) (st' : RtState) (rs : list Response.t) :
  forallb (fun q => negb (is_stop q)) qs = true ->
  run_queries qs st = Returns (st', rs) ->
  thread_sync st (qs ++ Query.Stop :: rest) alive true
    = mkLoopResult st' (rs ++ [Response.Ok]) rest Finished /\
  length rs = length qs.
Proof.
  revert st rs.
  induction qs as [|q qs IH]; intros st rs Hns Hrun.
  - cbn in Hrun. injection Hrun as <- <-. split; reflexivity.
  - cbn [forallb] in Hns. apply andb_prop in Hns as [Hq Hns].
    apply negb_true_iff in Hq.
    destruct (run_queries_cons q qs st st' rs Hrun) as (st1 & r & rs' & Hh & Hr & ->).
    destruct (IH st1 rs' Hns Hr) as [Hloop Hlen].
    split; [|cbn; congruence].
    rewrite <- app_comm_cons, thread_sync_cons by exact Hq.
    rewrite Hh, Hloop. reflexivity.
Qed.

Lemma sync_loop_fifo_witness :
  forallb (fun q => negb (is_stop q))
    [Query.LoadModule demo_module; Query.CallEntrypoint 0 []] = true /\
  thread_sync fresh_state
    ([Query.LoadModule demo_module; Query.CallEntrypoint 0 []] ++
     Query.Stop :: [Query.Eval "late"]) true true
  = mkLoopResult (1, <[0 := mkModuleHandle 0 demo_module]> ∅)
      ([Response.ModuleId 0; Response.Value (VNumber 1)] ++ [Response.Ok])
      [Query.Eval "late"] Finished /\
  length [Response.ModuleId 0; Response.Value (VNumber 1)]
  = length [Query.LoadModule demo_module; Query.CallEntrypoint 0 []].
Proof.
  split; [reflexivity|].
  apply (sync_loop_fifo fresh_state
           [Query.LoadModule demo_module; Query.CallEntrypoint 0 []]
           [Query.Eval "late"] true).
  - reflexivity.
  - reflexivity.
Defined.

(** ** C2 *)

Lemma settle_keeps_responses {R : Type} `{Runtime R} (ad : Adapter (R:=R)) (s : Sys (R:=R)) :
  exists l, r_buf (settle ad s) = r_buf s ++ l.
Proof.
  unfold settle. destruct (thr s).
  - destruct (lr_end _); eexists; reflexivity.
  - exists []. rewrite app_nil_r. reflexivity.
  - exists []. rewrite app_nil_r. reflexivity.
Qed.

(** C2 (as stated, refuted): [stop()] never receives the acknowledgement
    (it is still queued in the response channel afterwards), and a panic of
    the thread is reported as the fixed message ["Worker thread panicked"],
    not by the constructor's payload sanitisation. *)
Lemma stop_leaves_ack_and_hides_payload :
  stop sync_adapter fresh = Some (Ok tt, mkSys [] [Response.Ok] TDone) /\
  match send sync_adapter (Query.Eval "boom") fresh with
  | Ok s => stop sync_adapter s
  | Err _ => None
  end = Some (Err (Error.Runtime "Worker thread panicked"),
              mkSys [] [] (TPanicked (PString demo_panic_text))) /\
  startup_panic_message (Err (PString demo_panic_text))
    = String.append "engine failed" (String.append nl "while booting").
Proof. repeat split; vm_compute; reflexivity. Qed.

(** C2 (amended): [stop()] on a worker whose thread is gone returns the
    send error without joining.  Otherwise it queues [Stop] and joins: the
    result is the state of the thread after it ran, no response is read from
    the response channel, and the result is [Ok(())] if the thread returned
    and the fixed [Error::Runtime("Worker thread panicked")] if it panicked,
    whatever its payload. *)
Theorem stop_sends_stop_then_joins {R : Type} `{Runtime R} (ad : Adapter (R:=R))
    (s s' : Sys (R:=R))
    (res : Result unit Error.t) :
  stop ad s = Some (res, s') ->
  (thread_alive (thr s) = false /\ res = Err (Error.Runtime (ad_send_closed ad)) /\ s' = s) \/
  (thread_alive (thr s) = true /\
   s' = settle ad (mkSys (q_buf s ++ [Query.Stop]) (r_buf s) (thr s)) /\
   (exists l, r_buf s' = r_buf s ++ l) /\
   ((thr s' = TDone /\ res = Ok tt) \/
    (exists p, thr s' = TPanicked p /\
               res = Err (Error.Runtime "Worker thread panicked")))).
Proof.
  unfold stop, send.
  destruct (thread_alive (thr s)) eqn:Ha.
  - unfold join.
    destruct (settle_keeps_responses ad (mkSys (q_buf s ++ [Query.Stop]) (r_buf s) (thr s)))
      as [l Hl].
    destruct (thr (settle ad _)) eqn:Ht; intros Hs; try discriminate Hs;
      injection Hs as <- <-; right; (split; [reflexivity|]);
      (split; [reflexivity|]); (split; [exists l; exact Hl|]); eauto.
  - intros Hs. injection Hs as <- <-. left. auto.
Qed.

Lemma stop_sends_stop_then_joins_witness :
  stop sync_adapter fresh = Some (Ok tt, mkSys [] [Response.Ok] TDone) /\
  ((thread_alive (thr fresh) = false /\
    Ok tt = Err (Error.Runtime (ad_send_closed sync_adapter)) /\
    mkSys [] [Response.Ok] TDone = fresh) \/
   (thread_alive (thr fresh) = true /\
    mkSys [] [Response.Ok] TDone
      = settle sync_adapter (mkSys (q_buf fresh ++ [Query.Stop]) (r_buf fresh) (thr fresh)) /\
    (exists l, [Response.Ok] = r_buf fresh ++ l) /\
    ((TDone (R:=nat) = TDone /\ Ok (E:=Error.t) tt = Ok tt) \/
     (exists p, TDone (R:=nat) = TPanicked p /\
                Ok tt = Err (Error.Runtime "Worker thread panicked"))))).
Proof.
  split; [reflexivity|].
  apply (stop_sends_stop_then_joins sync_adapter fresh
           (mkSys [] [Response.Ok] TDone) (Ok tt)).
  reflexivity.
Defined.

(** ** C6 *)

(** C6 (as stated, refuted): the error for an unknown handle id carries the
    message ["Module not found"], with a capital letter, not
    ["module not found"]. *)
Lemma unknown_handle_message_capitalised :
  handle_query (Query.CallFunction (Some 7) "f" []) fresh_state
    = Returns (fresh_state, Response.Error (Error.Runtime "Module not found")) /\
  Error.Runtime "Module not found" <> Error.Runtime "module not found".
Proof. split; [reflexivity|discriminate]. Qed.

(** C6 (amended): for a handle id absent from the table, [CallEntrypoint],
    [CallFunction] and [GetValue] answer [Error(Error::Runtime("Module not
    found"))] and leave the whole state unchanged, whatever the engine (no
    engine method runs); the public operations return that error as it is,
    which differs from the protocol error of a mismatched response. *)
Theorem unknown_handle_is_module_not_found {R : Type} `{Runtime R}
    (st : RtState) (mid : ModuleId) :
  snd st !! mid = None ->
  (forall args : list Value,
      handle_query (Query.CallEntrypoint mid args) st
      = Returns (st, Response.Error module_not_found)) /\
  (forall (name : string) (args : list Value),
      handle_query (Query.CallFunction (Some mid) name args) st
      = Returns (st, Response.Error module_not_found)) /\
  (forall name : string,
      handle_query (Query.GetValue (Some mid) name) st
      = Returns (st, Response.Error module_not_found)) /\
  module_not_found = Error.Runtime "Module not found" /\
  (forall (T : Type) (fv : Value -> Result T Error.t),
      expect_value T fv (Response.Error module_not_found) = Err module_not_found) /\
  module_not_found <> unexpected_response.
Proof.
  intros Hn.
  repeat split; try (intros; cbn [handle_query bind modules_get]; rewrite Hn; reflexivity).
  discriminate.
Qed.

Lemma unknown_handle_is_module_not_found_witness :
  snd fresh_state !! 7 = None /\
  (forall args : list Value,
      handle_query (Query.CallEntrypoint 7 args) fresh_state
      = Returns (fresh_state, Response.Error module_not_found)) /\
  (forall (name : string) (args : list Value),
      handle_query (Query.CallFunction (Some 7) name args) fresh_state
      = Returns (fresh_state, Response.Error module_not_found)) /\
  (forall name : string,
      handle_query (Query.GetValue (Some 7) name) fresh_state
      = Returns (fresh_state, Response.Error module_not_found)) /\
  module_not_found = Error.Runtime "Module not found" /\
  (forall (T : Type) (fv : Value -> Result T Error.t),
      expect_value T fv (Response.Error module_not_found) = Err module_not_found) /\
  module_not_found <> unexpected_response.
Proof.
  split; [reflexivity|].
  apply (unknown_handle_is_module_not_found fresh_state 7).
  reflexivity.
Defined.

(** ** C7 *)

Lemma on_runtime_keeps_table {R : Type} `{Runtime R} {A : Type} (m : M R A)
    (st st' : RtState) (a : A) :
  on_runtime m st = Returns (st', a) -> snd st' = snd st.
Proof.
  destruct st as [rt mods]. cbn.
  destruct (m rt) as [[rt' b]|p]; intros E; [|discriminate E].
  injection E as <- _. reflexivity.
Qed.

Ltac split_engine_results H :=
  repeat (cbv beta iota zeta delta [handle_query bind ret modules_get
            modules_insert fst snd] in H;
          match type of H with
          | context [match ?x with Returns _ => _ | Panics _ => _ end] =>
              destruct x as [[? ?]|?] eqn:?
          | context [match ?x with Ok _ => _ | Err _ => _ end] =>
              destruct x eqn:?
          | context [match ?x with Some _ => _ | None => _ end] =>
              destruct x eqn:?
          | context [match ?x with pair _ _ => _ end] =>
              destruct x eqn:?
          end);
  try discriminate H;
  repeat match goal with
         | E : on_runtime _ _ = Returns _ |- _ =>
             apply on_runtime_keeps_table in E; cbn in E
         end.

(** C7: the table starts empty; a handled query either leaves it unchanged
    or, for a successful [LoadMainModule]/[LoadModule], inserts the new
    handle under its id (the id it answers with); so no entry is ever
    removed. *)
Theorem handle_table_grows_only_on_load {R : Type} `{Runtime R} :
  (forall (options : DefaultWorkerOptions) (st : RtState),
      init_runtime options = Returns (Ok st) -> snd st = ∅) /\
  (forall (q : Query.t) (st st' : RtState) (r : Response.t),
      handle_query q st = Returns (st', r) ->
      snd st' = snd st \/
      exists m h, (q = Query.LoadMainModule m \/ q = Query.LoadModule m) /\
                  r = Response.ModuleId (id h) /\ snd st' = <[id h := h]> (snd st)) /\
  (forall (q : Query.t) (st st' : RtState) (r : Response.t) (k : ModuleId),
      handle_query q st = Returns (st', r) ->
      is_Some (snd st !! k) -> is_Some (snd st' !! k)).
Proof.
  assert (Hstep : forall (q : Query.t) (st st' : RtState) (r : Response.t),
      handle_query q st = Returns (st', r) ->
      snd st' = snd st \/
      exists m h, (q = Query.LoadMainModule m \/ q = Query.LoadModule m) /\
                  r = Response.ModuleId (id h) /\ snd st' = <[id h := h]> (snd st)).
  { intros q [rt mods] st' r Hq.
    destruct q; split_engine_results Hq; injection Hq as <- <-; cbn; subst; eauto 8;
      match goal with
      | E : context [match ?x with pair _ _ => _ end] |- _ =>
          destruct x; cbn in E; injection E as <- _; cbn; eauto 8
      end. }
  split; [|split; [exact Hstep|]].
  - intros options st. unfold init_runtime.
    destruct rt_new as [[rt|e]|p]; intros Hi; try discriminate Hi.
    injection Hi as <-. reflexivity.
  - intros q st st' r k Hq Hk.
    destruct (Hstep q st st' r Hq) as [-> | (m & h & _ & _ & ->)]; [exact Hk|].
    destruct (decide (k = id h)) as [->|Hne].
    + rewrite lookup_insert_eq. eauto.
    + rewrite lookup_insert_ne by congruence. exact Hk.
Qed.

(** ** C8 *)

Lemma stop_ok_thread_done {R : Type} `{Runtime R} (ad : Adapter (R:=R)) (s0 s : Sys (R:=R)) :
  stop ad s0 = Some (Ok tt, s) -> thr s = TDone.
Proof.
  unfold stop, send, join.
  destruct (thread_alive (thr s0)); [|discriminate].
  destruct (thr (settle ad _)) eqn:Ht; intros E; try discriminate E.
  injection E as <-. exact Ht.
Qed.

(** C8: once [stop()] has returned [Ok(())], or whenever the thread has
    ended (which closes the query channel), sending a query fails at once
    with the channel's closed error, and so does every public operation
    and a further [stop()], without blocking and without changing the
    state. *)
Theorem closed_worker_fails_immediately {R : Type} `{Runtime R}
    (ad : Adapter (R:=R)) (s : Sys (R:=R)) :
  (exists s0, stop ad s0 = Some (Ok tt, s)) \/ thread_alive (thr s) = false ->
  let closed := Error.Runtime (ad_send_closed ad) in
  (forall q : Query.t, send ad q s = Err closed) /\
  (forall (T : Type) (fv : Value -> Result T Error.t) (code : string),
      eval T fv ad code s = Some (Err closed, s)) /\
  (forall m : Module, load_main_module ad m s = Some (Err closed, s)) /\
  (forall m : Module, load_module ad m s = Some (Err closed, s)) /\
  (forall (T : Type) (fv : Value -> Result T Error.t) (mid : ModuleId) (args : list Value),
      call_entrypoint T fv ad mid args s = Some (Err closed, s)) /\
  (forall (T : Type) (fv : Value -> Result T Error.t) (mctx : option ModuleId)
          (name : string) (args : list Value),
      call_function T fv ad mctx name args s = Some (Err closed, s)) /\
  (forall (T : Type) (fv : Value -> Result T Error.t) (mctx : option ModuleId)
          (name : string),
      get_value T fv ad mctx name s = Some (Err closed, s)) /\
  stop ad s = Some (Err closed, s).
Proof.
  intros Hs closed.
  assert (Ha : thread_alive (thr s) = false).
  { destruct Hs as [[s0 Hstop]|Ha]; [|exact Ha].
    rewrite (stop_ok_thread_done ad s0 s Hstop). reflexivity. }
  assert (Hsend : forall q, send ad q s = Err closed).
  { intros q. unfold send. rewrite Ha. reflexivity. }
  repeat split; intros;
    unfold eval, load_main_module, load_module, call_entrypoint, call_function,
      get_value, send_and_await, stop;
    rewrite ?Hsend; reflexivity.
Qed.

Lemma closed_worker_fails_immediately_witness :
  (exists s0, stop sync_adapter s0 = Some (Ok tt, mkSys [] [Response.Ok] TDone)) /\
  eval Value json_value sync_adapter "1+1" (mkSys [] [Response.Ok] TDone)
    = Some (Err (Error.Runtime "sending on a closed channel"), mkSys [] [Response.Ok] TDone).
Proof.
  assert (Hs : exists s0, stop sync_adapter s0 = Some (Ok tt, mkSys [] [Response.Ok] TDone))
    by (exists fresh; reflexivity).
  split; [exact Hs|].
  apply (closed_worker_fails_immediately sync_adapter (mkSys [] [Response.Ok] TDone)
           (or_introl Hs)).
Defined.

(** ** C5 *)

(** C5: whatever adapter, when the response an operation receives is
    neither the [Error] variant nor the variant it expects ([Value] for
    [eval], [call_entrypoint], [call_function] and [get_value]; [ModuleId]
    for [load_main_module] and [load_module]), the operation returns the
    protocol error [Error::Runtime("Unexpected response from the worker")]
    instead of a value. *)
Theorem mismatched_response_is_protocol_error {R : Type} `{Runtime R}
    (ad : Adapter (R:=R)) (s s' : Sys (R:=R)) (r : Response.t) :
  is_error r = false ->
  unexpected_response = Error.Runtime "Unexpected response from the worker" /\
  (is_value r = false ->
   (forall (T : Type) (fv : Value -> Result T Error.t) (code : string),
       send_and_await ad (Query.Eval code) s = Some (Ok r, s') ->
       eval T fv ad code s = Some (Err unexpected_response, s')) /\
   (forall (T : Type) (fv : Value -> Result T Error.t) (mid : ModuleId) (args : list Value),
       send_and_await ad (Query.CallEntrypoint mid args) s = Some (Ok r, s') ->
       call_entrypoint T fv ad mid args s = Some (Err unexpected_response, s')) /\
   (forall (T : Type) (fv : Value -> Result T Error.t) (mctx : option ModuleId)
           (name : string) (args : list Value),
       send_and_await ad (Query.CallFunction mctx name args) s = Some (Ok r, s') ->
       call_function T fv ad mctx name args s = Some (Err unexpected_response, s')) /\
   (forall (T : Type) (fv : Value -> Result T Error.t) (mctx : option ModuleId)
           (name : string),
       send_and_await ad (Query.GetValue mctx name) s = Some (Ok r, s') ->
       get_value T fv ad mctx name s = Some (Err unexpected_response, s'))) /\
  (is_module_id r = false ->
   (forall m : Module,
       send_and_await ad (Query.LoadMainModule m) s = Some (Ok r, s') ->
       load_main_module ad m s = Some (Err unexpected_response, s')) /\
   (forall m : Module,
       send_and_await ad (Query.LoadModule m) s = Some (Ok r, s') ->
       load_module ad m s = Some (Err unexpected_response, s'))).
Proof.
  intros He.
  split; [reflexivity|].
  split; intros Ht; repeat split; intros;
    unfold eval, load_main_module, load_module, call_entrypoint, call_function, get_value;
    match goal with E : send_and_await _ _ _ = _ |- _ => rewrite E end;
    cbn; destruct r; cbn in *; congruence.
Qed.

(** A stale [ModuleId] response (from a query sent with [send] and never
    received) is read by the next [eval]. *)
Lemma mismatched_response_is_protocol_error_witness :
  is_error (Response.ModuleId 0) = false /\
  eval Value json_value sync_adapter "1+1"
    (mkSys [] [Response.ModuleId 0] (TRunning fresh_state))
  = Some (Err unexpected_response,
          mkSys [] [Response.Value (VString "1+1")] (TRunning fresh_state)).
Proof.
  split; [reflexivity|].
  apply (mismatched_response_is_protocol_error sync_adapter
           (mkSys [] [Response.ModuleId 0] (TRunning fresh_state))
           (mkSys [] [Response.Value (VString "1+1")] (TRunning fresh_state))
           (Response.ModuleId 0) eq_refl); reflexivity.
Defined.

(** ** C4 *)

Section Sanitise.

Lemma prefix_append (p t u : string) :
  String.prefix p t = true -> String.prefix p (String.append t u) = true.
Proof.
  revert t. induction p as [|a p IH]; intros t;
    [destruct t, u; reflexivity|].
  destruct t as [|b t]; intros Hp; [discriminate Hp|].
  simpl in Hp |- *.
  destruct (ascii_dec a b); [apply IH; exact Hp|discriminate Hp].
Qed.

Lemma contains_of_prefix (pat s : string) :
  String.prefix pat s = true -> contains pat s = true.
Proof. intros Hp. destruct s; cbn [contains]; rewrite Hp; reflexivity. Qed.

Lemma contains_append (pat t u : string) :
  contains pat t = true -> contains pat (String.append t u) = true.
Proof.
  induction t as [|c t IH]; intros Hc; cbn [contains] in Hc.
  - apply orb_true_iff in Hc as [Hc|Hc]; [|discriminate].
    apply contains_of_prefix. exact (prefix_append pat EmptyString u Hc).
  - apply orb_true_iff in Hc as [Hc|Hc].
    + apply contains_of_prefix. exact (prefix_append pat (String c t) u Hc).
    + change (contains pat (String c (String.append t u)) = true).
      cbn [contains]. rewrite (IH Hc). apply orb_true_r.
Qed.

Lemma split_first_is_prefix (pat s : string) :
  exists rest, s = String.append (split_first pat s) rest.
Proof.
  induction s as [|c s IH]; [exists EmptyString; reflexivity|].
  cbn [split_first].
  destruct (String.prefix pat (String c s)); [exists (String c s); reflexivity|].
  destruct IH as [rest Hr]. exists rest. exact (f_equal (String c) Hr).
Qed.

Lemma split_first_no_marker (pat s : string) :
  pat <> EmptyString -> contains pat (split_first pat s) = false.
Proof.
  intros Hp.
  assert (He : String.prefix pat EmptyString = false)
    by (destruct pat; [congruence|reflexivity]).
  induction s as [|c s IH]; cbn [split_first].
  - cbn [contains]. rewrite He. reflexivity.
  - destruct (String.prefix pat (String c s)) eqn:Hpre.
    + cbn [contains]. rewrite He. reflexivity.
    + cbn [contains]. rewrite IH, orb_false_r.
      destruct (String.prefix pat (String c (split_first pat s))) eqn:Hq; [|reflexivity].
      destruct (split_first_is_prefix pat s) as [rest Hr].
      pose proof (prefix_append pat (String c (split_first pat s)) rest Hq) as Hx.
      change (String.prefix pat (String c (String.append (split_first pat s) rest)) = true)
        in Hx.
      rewrite <- Hr in Hx. congruence.
Qed.

Lemma append_assoc_str (s t u : string) :
  String.append (String.append s t) u = String.append s (String.append t u).
Proof. induction s as [|a s IH]; [reflexivity|]. exact (f_equal (String a) IH). Qed.

Lemma append_empty_str (s : string) : String.append s EmptyString = s.
Proof. induction s as [|a s IH]; [reflexivity|]. exact (f_equal (String a) IH). Qed.

Lemma rev_str_append (s t : string) :
  rev_str (String.append s t) = String.append (rev_str t) (rev_str s).
Proof.
  induction s as [|a s IH].
  - change (rev_str t = String.append (rev_str t) EmptyString).
    rewrite append_empty_str. reflexivity.
  - change (String.append (rev_str (String.append s t)) (String a EmptyString)
            = String.append (rev_str t) (String.append (rev_str s) (String a EmptyString))).
    rewrite IH, append_assoc_str. reflexivity.
Qed.

Lemma rev_str_involutive (s : string) : rev_str (rev_str s) = s.
Proof.
  induction s as [|a s IH]; [reflexivity|].
  change (rev_str (String.append (rev_str s) (String a EmptyString)) = String a s).
  rewrite rev_str_append, IH. reflexivity.
Qed.

Lemma contains_append_l (pat t u : string) :
  contains pat u = true -> contains pat (String.append t u) = true.
Proof.
  induction t as [|c t IH]; intros Hc; [exact Hc|].
  change (contains pat (String c (String.append t u)) = true).
  cbn [contains]. rewrite (IH Hc). apply orb_true_r.
Qed.

(** Strong induction on the length of a string. *)
Lemma string_length_ind (P : string -> Prop) :
  (forall s, (forall t, String.length t < String.length s -> P t) -> P s) ->
  forall s, P s.
Proof.
  intros Hstep s.
  assert (Hn : forall n t, String.length t <= n -> P t).
  { induction n as [|n IH]; intros t Ht; apply Hstep; intros u Hu; [lia|].
    apply IH. lia. }
  exact (Hn _ s (le_n _)).
Qed.

Lemma strip_leading_suffix w1 w2 w3 (s : string) :
  exists p, s = String.append p (strip_leading w1 w2 w3 s).
Proof.
  induction s as [s IH] using string_length_ind.
  destruct s as [|a s1]; [exists EmptyString; reflexivity|].
  cbn [strip_leading].
  destruct (w1 a).
  { destruct (IH s1 ltac:(cbn; lia)) as [p Hp].
    exists (String a p). exact (f_equal (String a) Hp). }
  destruct s1 as [|b s2]; [exists EmptyString; reflexivity|].
  destruct (w2 a b).
  { destruct (IH s2 ltac:(cbn; lia)) as [p Hp].
    exists (String a (String b p)). exact (f_equal (String a) (f_equal (String b) Hp)). }
  destruct s2 as [|c s3]; [exists EmptyString; reflexivity|].
  destruct (w3 a b c); [|exists EmptyString; reflexivity].
  destruct (IH s3 ltac:(cbn; lia)) as [p Hp].
  exists (String a (String b (String c p))).
  exact (f_equal (String a) (f_equal (String b) (f_equal (String c) Hp))).
Qed.

Lemma strip_leading_head w1 w2 w3 (s : string) :
  ws_head w1 w2 w3 (strip_leading w1 w2 w3 s) = false.
Proof.
  induction s as [s IH] using string_length_ind.
  destruct s as [|a s1]; [reflexivity|].
  cbn [strip_leading].
  destruct (w1 a) eqn:H1; [apply IH; cbn; lia|].
  destruct s1 as [|b s2]; [cbn; rewrite H1; reflexivity|].
  destruct (w2 a b) eqn:H2; [apply IH; cbn; lia|].
  destruct s2 as [|c s3]; [cbn; rewrite H1, H2; reflexivity|].
  destruct (w3 a b c) eqn:H3; [apply IH; cbn; lia|].
  cbn. rewrite H1, H2, H3. reflexivity.
Qed.

Lemma ws_head_append w1 w2 w3 (p q : string) :
  ws_head w1 w2 w3 p = true -> ws_head w1 w2 w3 (String.append p q) = true.
Proof.
  intros H.
  destruct p as [|a p1]; [discriminate H|].
  change (ws_head w1 w2 w3 (String a (String.append p1 q)) = true).
  cbn [ws_head] in H |- *.
  destruct (w1 a); [reflexivity|]. cbn [orb] in H |- *.
  destruct p1 as [|b p2]; [discriminate H|].
  change (String.append (String b p2) q) with (String b (String.append p2 q)).
  cbv beta iota in H |- *.
  destruct (w2 a b); [reflexivity|]. cbn [orb] in H |- *.
  destruct p2 as [|c p3]; [discriminate H|].
  exact H.
Qed.

Lemma trim_end_is_prefix (s : string) :
  exists rest, s = String.append (trim_end s) rest.
Proof.
  unfold trim_end.
  destruct (strip_leading_suffix is_whitespace1 is_whitespace2_rev is_whitespace3_rev
              (rev_str s)) as [p Hp].
  exists (rev_str p).
  rewrite <- rev_str_append, <- Hp, rev_str_involutive. reflexivity.
Qed.

Lemma contains_trim (pat s : string) :
  contains pat (trim s) = true -> contains pat s = true.
Proof.
  unfold trim. intros Hc.
  destruct (strip_leading_suffix is_whitespace1 is_whitespace2 is_whitespace3 s) as [p Hp].
  rewrite Hp. apply contains_append_l.
  destruct (trim_end_is_prefix (trim_start s)) as [rest Hr].
  unfold trim_start in Hr |- *.
  rewrite Hr. apply contains_append. exact Hc.
Qed.

Lemma trim_no_outer_whitespace (s : string) :
  starts_with_whitespace (trim s) = false /\ ends_with_whitespace (trim s) = false.
Proof.
  unfold trim. split.
  - destruct (starts_with_whitespace (trim_end (trim_start s))) eqn:Hs; [|reflexivity].
    destruct (trim_end_is_prefix (trim_start s)) as [rest Hr].
    apply (ws_head_append _ _ _ _ rest) in Hs. rewrite <- Hr in Hs.
    unfold trim_start in Hs. rewrite strip_leading_head in Hs. discriminate Hs.
  - unfold ends_with_whitespace, trim_end. rewrite rev_str_involutive.
    apply strip_leading_head.
Qed.

End Sanitise.

(** C4 (as stated, refuted): the message is not reduced to one line; the
    text before the ["Stack backtrace"] marker is kept whole, line breaks
    included. *)
Lemma startup_panic_message_keeps_lines :
  rt_new (mkOptions None 0) = Panics (PString demo_panic_text) /\
  new_sync (mkOptions None 0)
    = Some (Err (Error.Runtime
                   (String.append "engine failed" (String.append nl "while booting")))) /\
  contains nl (String.append "engine failed" (String.append nl "while booting")) = true.
Proof. repeat split; vm_compute; reflexivity. Qed.

(** C4 (amended): when engine construction panics before the thread
    signals, both constructors join the thread and return
    [Error::Runtime(m)], where [m] is the panic payload if it is a [String]
    or [&str] and ["Could not start runtime thread"] otherwise, cut before
    the first ["Stack backtrace"] and trimmed.  [m] contains no
    ["Stack backtrace"] and neither starts nor ends with whitespace. *)
Theorem startup_panic_is_sanitised {R : Type} `{Runtime R}
    (options : DefaultWorkerOptions) (p : Payload) :
  rt_new options = Panics p ->
  let m := trim (split_first stack_backtrace
                   (match downcast_text p with
                    | Some e => e
                    | None => "Could not start runtime thread"
                    end)) in
  new_sync options = Some (Err (Error.Runtime m)) /\
  (forall tb : unit, new_async (Ok tb) options = Some (Err (Error.Runtime m))) /\
  contains stack_backtrace m = false /\
  starts_with_whitespace m = false /\
  ends_with_whitespace m = false.
Proof.
  intros Hnew m.
  assert (Hm : contains stack_backtrace m = false).
  { destruct (contains stack_backtrace m) eqn:Hc; [|reflexivity].
    apply contains_trim in Hc.
    rewrite split_first_no_marker in Hc; [discriminate Hc|discriminate]. }
  destruct (trim_no_outer_whitespace
              (split_first stack_backtrace
                 (match downcast_text p with
                  | Some e => e
                  | None => "Could not start runtime thread"
                  end))) as [Hs He].
  split; [|split; [|split; [exact Hm|split; [exact Hs|exact He]]]].
  - unfold new_sync, spawn_sync, init_runtime. rewrite Hnew. reflexivity.
  - intros tb. unfold new_async, spawn_async. rewrite Hnew. reflexivity.
Qed.

Lemma startup_panic_is_sanitised_witness :
  rt_new (mkOptions None 0) = Panics (PString demo_panic_text) /\
  new_sync (mkOptions None 0)
    = Some (Err (Error.Runtime (trim (split_first stack_backtrace demo_panic_text)))).
Proof.
  split; [reflexivity|].
  apply (startup_panic_is_sanitised (mkOptions None 0) (PString demo_panic_text)).
  reflexivity.
Defined.

(* ================================================================== *)
(** * Further properties of the worker and the utilities *)

Section ExtraHelpers.
Context {R : Type} `{Runtime R}.

(** On a worker with nothing queued and nothing unread, a query other than
    [Stop] is answered by one run of [handle_query]; an engine panic ends
    the thread and the call returns the channel's closed error. *)
Lemma idle_send_and_await (ad : Adapter (R:=R)) (q : Query.t) (st : RtState) :
  ad = sync_adapter \/ ad = async_adapter ->
  is_stop q = false ->
  send_and_await ad q (mkSys [] [] (TRunning st)) =
  match handle_query q st with
  | Returns (st', r) => Some (Ok r, mkSys [] [] (TRunning st'))
  | Panics p => Some (Err (Error.Runtime (ad_recv_closed ad)), mkSys [] [] (TPanicked p))
  end.
Proof.
  intros Had Hs.
  unfold send_and_await, send, receive, settle. cbn [thread_alive thr q_buf r_buf app].
  destruct Had as [->| ->]; cbn [ad_thread sync_adapter async_adapter].
  - rewrite thread_sync_cons by exact Hs.
    destruct (handle_query q st) as [[st' r]|p]; reflexivity.
  - cbn [thread_async].
    destruct (handle_query q st) as [[st' r]|p]; reflexivity.
Qed.

(** With [Stop] at the end of the queue, the blocking loop never ends up
    waiting for a query. *)
Lemma thread_sync_stop_last (st : RtState) (qs : list Query.t) (alive open : bool) :
  lr_end (thread_sync st (qs ++ [Query.Stop]) alive open) <> Waiting.
Proof.
  revert st. induction qs as [|q qs IH]; intros st.
  - cbn. destruct open; discriminate.
  - destruct (is_stop q) eqn:Hs.
    + destruct q; try discriminate Hs. cbn. destruct open; discriminate.
    + rewrite <- app_comm_cons, thread_sync_cons by exact Hs.
      destruct (handle_query q st) as [[st' r]|p]; [|discriminate].
      destruct open; [apply IH|discriminate].
Qed.

End ExtraHelpers.

Lemma split_first_without_marker (pat s : string) :
  contains pat s = false -> split_first pat s = s.
Proof.
  induction s as [|c s IH]; [reflexivity|].
  cbn [contains]. intros Hc. apply orb_false_iff in Hc as [Hp Hc].
  cbn [split_first]. rewrite Hp, (IH Hc). reflexivity.
Qed.

(** ** X1 *)

(** X1: on an idle worker (nothing queued, nothing unread, thread
    running), [eval] returns what the engine's [eval] returned: its error
    unchanged, or its value decoded by [from_value]; the new engine state
    is kept and the worker stays idle.  If the engine panics, [eval]
    returns the closed-channel error of [receive], not
    ["Worker thread panicked"], and the thread is gone.  Both adapters. *)
Theorem idle_eval_passes_engine_result {R : Type} `{Runtime R} (ad : Adapter (R:=R))
    (T : Type) (fv : Value -> Result T Error.t) (code : string)
    (rt : R) (mods : gmap nat ModuleHandle) :
  ad = sync_adapter \/ ad = async_adapter ->
  (forall rt' res, rt_eval code rt = Returns (rt', res) ->
     eval T fv ad code (mkSys [] [] (TRunning (rt, mods)))
     = Some (match res with Ok v => fv v | Err e => Err e end,
             mkSys [] [] (TRunning (rt', mods)))) /\
  (forall p, rt_eval code rt = Panics p ->
     eval T fv ad code (mkSys [] [] (TRunning (rt, mods)))
     = Some (Err (Error.Runtime (ad_recv_closed ad)), mkSys [] [] (TPanicked p))).
Proof.
  intros Had. unfold eval.
  rewrite (idle_send_and_await ad (Query.Eval code) (rt, mods) Had eq_refl).
  cbv beta iota zeta delta [handle_query bind on_runtime ret].
  split.
  - intros rt' res He. rewrite He. destruct res; reflexivity.
  - intros p He. rewrite He. reflexivity.
Qed.

Lemma idle_eval_passes_engine_result_witness :
  eval Value json_value sync_adapter "boom" (mkSys [] [] (TRunning (0, ∅)))
  = Some (Err (Error.Runtime "receiving on a closed channel"),
          mkSys [] [] (TPanicked (PString demo_panic_text))).
Proof.
  apply (proj2 (idle_eval_passes_engine_result sync_adapter Value json_value "boom" 0 ∅
                  (or_introl eq_refl))).
  reflexivity.
Defined.

(** ** X2 *)

(** X2: responses are paired with queries by position only: while the
    thread runs and a response is still unread (for instance that of a
    query sent with [send] and never received), [send_and_await] returns
    that oldest unread response, whatever query it sends, and the later
    responses stay queued behind it. *)
Theorem send_and_await_returns_oldest_unread {R : Type} `{Runtime R}
    (ad : Adapter (R:=R)) (q : Query.t) (s : Sys (R:=R)) (st : RtState)
    (r : Response.t) (rs : list Response.t) :
  thr s = TRunning st ->
  r_buf s = r :: rs ->
  exists s', send_and_await ad q s = Some (Ok r, s') /\
             exists l, r_buf s' = rs ++ l.
Proof.
  intros Ht Hr.
  unfold send_and_await, send. rewrite Ht. cbn [thread_alive].
  unfold receive, settle. cbn [thr q_buf r_buf]. rewrite Hr.
  destruct (lr_end _); cbn; eexists; (split; [reflexivity|]); eexists; reflexivity.
Qed.

Lemma send_and_await_returns_oldest_unread_witness :
  exists s', send_and_await sync_adapter (Query.Eval "1+1")
               (mkSys [] [Response.ModuleId 0] (TRunning fresh_state))
             = Some (Ok (Response.ModuleId 0), s') /\
             exists l, r_buf s' = [] ++ l.
Proof.
  apply (send_and_await_returns_oldest_unread sync_adapter (Query.Eval "1+1")
           (mkSys [] [Response.ModuleId 0] (TRunning fresh_state)) fresh_state
           (Response.ModuleId 0) []); reflexivity.
Defined.

(** ** X3 *)

(** X3: loading a module and calling its entrypoint round-trip through the
    handle table: on an idle worker, when the engine loads [m] as handle
    [h], [load_module] returns [h]'s id and the table maps that id to [h];
    [call_entrypoint] with that id then calls the engine's entrypoint on
    [h] and returns its result (its error unchanged, or its value
    decoded).  Both adapters. *)
Theorem load_then_call_entrypoint_round_trip {R : Type} `{Runtime R}
    (ad : Adapter (R:=R)) (T : Type) (fv : Value -> Result T Error.t)
    (m : Module) (args : list Value) (rt rt1 rt2 : R) (mods : gmap nat ModuleHandle)
    (h : ModuleHandle) (res : Result Value Error.t) :
  ad = sync_adapter \/ ad = async_adapter ->
  rt_load_module m rt = Returns (rt1, Ok h) ->
  rt_call_entrypoint h args rt1 = Returns (rt2, res) ->
  load_module ad m (mkSys [] [] (TRunning (rt, mods)))
    = Some (Ok (id h), mkSys [] [] (TRunning (rt1, <[id h := h]> mods))) /\
  (<[id h := h]> mods) !! id h = Some h /\
  call_entrypoint T fv ad (id h) args (mkSys [] [] (TRunning (rt1, <[id h := h]> mods)))
    = Some (match res with Ok v => fv v | Err e => Err e end,
            mkSys [] [] (TRunning (rt2, <[id h := h]> mods))).
Proof.
  intros Had Hl Hc.
  assert (Hin : (<[id h := h]> mods) !! id h = Some h) by apply lookup_insert_eq.
  split; [|split; [exact Hin|]].
  - unfold load_module.
    rewrite (idle_send_and_await ad (Query.LoadModule m) (rt, mods) Had eq_refl).
    cbv beta iota zeta delta [handle_query bind on_runtime ret modules_insert].
    rewrite Hl. reflexivity.
  - unfold call_entrypoint.
    rewrite (idle_send_and_await ad (Query.CallEntrypoint (id h) args)
               (rt1, <[id h := h]> mods) Had eq_refl).
    cbv beta iota zeta delta [handle_query bind on_runtime ret modules_get snd].
    rewrite Hin, Hc. destruct res; reflexivity.
Qed.

Lemma load_then_call_entrypoint_round_trip_witness :
  load_module async_adapter demo_module (mkSys [] [] (TRunning (0, ∅)))
    = Some (Ok 0, mkSys [] [] (TRunning (1, <[0 := mkModuleHandle 0 demo_module]> ∅))) /\
  (<[0 := mkModuleHandle 0 demo_module]> (∅ : gmap nat ModuleHandle)) !! 0
    = Some (mkModuleHandle 0 demo_module) /\
  call_entrypoint Value json_value async_adapter 0 []
    (mkSys [] [] (TRunning (1, <[0 := mkModuleHandle 0 demo_module]> ∅)))
    = Some (json_value (VNumber 1),
            mkSys [] [] (TRunning (1, <[0 := mkModuleHandle 0 demo_module]> ∅))).
Proof.
  apply (load_then_call_entrypoint_round_trip async_adapter Value json_value
           demo_module [] 0 1 1 ∅ (mkModuleHandle 0 demo_module) (Ok (VNumber 1)));
    [right; reflexivity|reflexivity|reflexivity].
Defined.

(** ** X4 *)

(** X4: the blocking worker's [stop()] never blocks, whatever is queued or
    unread: the queued [Stop] always ends its loop.  On a running worker
    with nothing queued it returns [Ok(())], the acknowledgement being left
    unread after the earlier unread responses. *)
Theorem sync_stop_never_blocks {R : Type} `{Runtime R} :
  (forall s : Sys (R:=R), stop sync_adapter s <> None) /\
  (forall (st : RtState) (rb : list Response.t),
      stop sync_adapter (mkSys [] rb (TRunning st))
      = Some (Ok tt, mkSys [] (rb ++ [Response.Ok]) TDone)).
Proof.
  split.
  - intros s. unfold stop, send.
    destruct (thread_alive (thr s)) eqn:Ha; [|discriminate].
    destruct (thr s) as [st| |p] eqn:Ht; try discriminate Ha.
    unfold join, settle. cbn [thr q_buf r_buf ad_thread sync_adapter].
    pose proof (thread_sync_stop_last st (q_buf s) true true) as Hw.
    destruct (lr_end (thread_sync st (q_buf s ++ [Query.Stop]) true true));
      [discriminate|discriminate|contradiction].
  - intros st rb. reflexivity.
Qed.

(** ** X5 *)

(** X5: the blocking loop without [Stop]: if the engine does not panic, it
    answers every queued query in order, as [handle_query] on the state left
    by the previous ones, and then waits for the next query while the
    worker holds its sender, or returns once the query channel is closed,
    with no further response. *)
Theorem sync_loop_without_stop {R : Type} `{Runtime R} (st : RtState)
    (qs : list Query.t) (alive : bool) (st' : RtState) (rs : list Response.t) :
  forallb (fun q => negb (is_stop q)) qs = true ->
  run_queries qs st = Returns (st', rs) ->
  thread_sync st qs alive true
    = mkLoopResult st' rs [] (if alive then Waiting else Finished).
Proof.
  revert st rs.
  induction qs as [|q qs IH]; intros st rs Hns Hrun.
  - cbn in Hrun. injection Hrun as <- <-. reflexivity.
  - cbn [forallb] in Hns. apply andb_prop in Hns as [Hq Hns].
    apply negb_true_iff in Hq.
    destruct (run_queries_cons q qs st st' rs Hrun) as (st1 & r & rs' & Hh & Hr & ->).
    rewrite thread_sync_cons by exact Hq.
    rewrite Hh, (IH st1 rs' Hns Hr). reflexivity.
Qed.

Lemma sync_loop_without_stop_witness :
  thread_sync fresh_state [Query.LoadModule demo_module; Query.CallEntrypoint 0 []] false true
  = mkLoopResult (1, <[0 := mkModuleHandle 0 demo_module]> ∅)
      [Response.ModuleId 0; Response.Value (VNumber 1)] [] Finished.
Proof.
  apply (sync_loop_without_stop fresh_state
           [Query.LoadModule demo_module; Query.CallEntrypoint 0 []] false); reflexivity.
Defined.

(** ** X6 *)

(** X6: the cooperative loop and the trait's default blocking loop have no
    [Stop] arm: [Stop] is answered with [Ok(())] like any other query, and
    if the engine does not panic they answer every queued query in order
    and end only when the query channel is closed. *)
Theorem loops_answer_stop_like_any_query {R : Type} `{Runtime R} (st : RtState)
    (qs : list Query.t) (alive : bool) (st' : RtState) (rs : list Response.t) :
  run_queries qs st = Returns (st', rs) ->
  handle_query Query.Stop st = Returns (st, Response.Ok) /\
  thread_async st qs alive true
    = mkLoopResult st' rs [] (if alive then Waiting else Finished) /\
  thread_default st qs alive true
    = mkLoopResult st' rs [] (if alive then Waiting else Finished).
Proof.
  intros Hrun. split; [reflexivity|].
  revert st rs Hrun.
  induction qs as [|q qs IH]; intros st rs Hrun.
  - cbn in Hrun. injection Hrun as <- <-. split; reflexivity.
  - destruct (run_queries_cons q qs st st' rs Hrun) as (st1 & r & rs' & Hh & Hr & ->).
    destruct (IH st1 rs' Hr) as [Ha Hd].
    cbn [thread_async thread_default]. rewrite Hh, Ha, Hd. split; reflexivity.
Qed.

Lemma loops_answer_stop_like_any_query_witness :
  handle_query Query.Stop fresh_state = Returns (fresh_state, Response.Ok) /\
  thread_async fresh_state [Query.Stop; Query.Eval "x"; Query.Stop] false true
    = mkLoopResult fresh_state [Response.Ok; Response.Value (VString "x"); Response.Ok]
        [] Finished /\
  thread_default fresh_state [Query.Stop; Query.Eval "x"; Query.Stop] false true
    = mkLoopResult fresh_state [Response.Ok; Response.Value (VString "x"); Response.Ok]
        [] Finished.
Proof.
  apply (loops_answer_stop_like_any_query fresh_state
           [Query.Stop; Query.Eval "x"; Query.Stop] false); reflexivity.
Defined.

(** ** X7 *)

(** X7: the constructors' non-panicking paths: an error of the engine's
    construction is returned by both constructors as it is; on success both
    return an idle worker whose thread runs with an empty handle table; a
    failure to build the async adapter's tokio runtime is returned as it is,
    before any engine is constructed. *)
Theorem constructors_pass_init_result {R : Type} `{Runtime R}
    (options : DefaultWorkerOptions) :
  (forall e, rt_new options = Returns (Err e) ->
     new_sync options = Some (Err e) /\ new_async (Ok tt) options = Some (Err e)) /\
  (forall rt, rt_new options = Returns (Ok rt) ->
     new_sync options = Some (Ok (mkSys [] [] (TRunning (rt, ∅)))) /\
     new_async (Ok tt) options = Some (Ok (mkSys [] [] (TRunning (rt, ∅))))) /\
  (forall e, new_async (Err e) options = Some (Err e)).
Proof.
  unfold new_sync, new_async, spawn_sync, spawn_async, init_runtime.
  split; [|split].
  - intros e He. rewrite He. split; reflexivity.
  - intros rt He. rewrite He. split; reflexivity.
  - intros e. reflexivity.
Qed.

(** ** X8 *)

(** X8: the startup-panic message without a marker: a [String] or [&str]
    payload containing no ["Stack backtrace"] is only trimmed; a payload of
    any other type gives ["Could not start runtime thread"]. *)
Theorem startup_message_without_marker (t : string) :
  contains stack_backtrace t = false ->
  startup_panic_message (Err (PString t)) = trim t /\
  startup_panic_message (Err (PStr t)) = trim t /\
  startup_panic_message (Err POther) = "Could not start runtime thread".
Proof.
  intros Hc. unfold startup_panic_message. cbn [downcast_text].
  rewrite (split_first_without_marker _ _ Hc).
  split; [reflexivity|split; [reflexivity|vm_compute; reflexivity]].
Qed.

Lemma startup_message_without_marker_witness :
  startup_panic_message (Err (PString (String.append "boot failed" ideographic_space)))
    = "boot failed".
Proof.
  destruct (startup_message_without_marker (String.append "boot failed" ideographic_space))
    as [H _]; [vm_compute; reflexivity|].
  rewrite H. vm_compute. reflexivity.
Defined.

Section CallbackProperties.
Variables J C E : Type.
Variable json_to_string : J -> string.
Variable json_error : J -> Error.t.
Variable from_err : E -> Error.t.
Variable try_from : C -> Result Value string.

Local Abbreviation Callback := (Callback J C E).
Local Abbreviation run := (run_callback J C E from_err try_from).
Local Abbreviation sync_cb := (sync_callback J C E json_error from_err try_from).
Local Abbreviation async_cb := (async_callback J C E json_to_string from_err try_from).

Lemma run_callback_consumes (de : J -> Error.t) (cb cb' : Callback) (pre post : list Value) :
  consumes J C E cb pre cb' -> run de cb (pre ++ post) = run de cb' post.
Proof.
  induction 1 as [cb|A fv k arg rest a cb' Hfv _ IH]; [reflexivity|].
  cbn. rewrite Hfv. exact IH.
Qed.

Lemma has_arity_param_inv {A : Type} (fv : Value -> Result A J) (k : A -> Callback) (n : nat) :
  has_arity J C E (Param fv k) n -> exists m, n = S m /\ forall a, has_arity J C E (k a) m.
Proof.
  intros H.
  change (match Param fv k with
          | Body _ => True
          | Param _ k' => exists m, n = S m /\ forall a, has_arity J C E (k' a) m
          end).
  destruct H as [r|A' fv' k' m Hk]; [exact I|eauto].
Qed.

Lemma arity_consumes_param (cb cb' : Callback) (args : list Value) (n : nat) :
  has_arity J C E cb n -> consumes J C E cb args cb' -> length args < n ->
  exists (A : Type) (fv : Value -> Result A J) (k : A -> Callback), cb' = Param fv k.
Proof.
  intros Har Hc. revert n Har.
  induction Hc as [cb|A fv k arg rest a cb' Hfv _ IH]; intros n Har Hlen.
  - destruct Har as [r|A fv k m Hk]; [cbn in Hlen; lia|eauto].
  - destruct (has_arity_param_inv fv k n Har) as (m & -> & Hk).
    apply (IH m (Hk a)). cbn in Hlen. lia.
Qed.

Lemma run_callback_firstn (de : J -> Error.t) (cb : Callback) (n : nat) (args : list Value) :
  has_arity J C E cb n -> run de cb args = run de cb (firstn n args).
Proof.
  intros Har. revert args.
  induction Har as [r|A fv k n Hk IH]; intros args; [reflexivity|].
  destruct args as [|arg rest]; [reflexivity|].
  cbn. destruct (fv arg) as [a|e]; [apply IH|reflexivity].
Qed.

(** ** X9 *)

(** X9: a callback built by [sync_callback!] or [async_callback!] that
    declares [n] parameters, each of its own type, called with fewer
    arguments that all decode, returns
    [Error::Runtime("Invalid number of arguments")] without running its
    body. *)
Theorem callbacks_check_argument_count (cb cb' : Callback) (n : nat) (args : list Value) :
  has_arity J C E cb n ->
  length args < n ->
  consumes J C E cb args cb' ->
  sync_cb cb args = Err invalid_arg_count /\
  async_cb cb args = Err invalid_arg_count /\
  invalid_arg_count = Error.Runtime "Invalid number of arguments".
Proof.
  intros Har Hlen Hc.
  destruct (arity_consumes_param cb cb' args n Har Hc Hlen) as (A & fv & k & ->).
  unfold sync_callback, async_callback.
  rewrite <- (app_nil_r args), !(run_callback_consumes _ cb _ args []) by exact Hc.
  auto.
Qed.

(** ** X10 *)

(** X10: the callbacks decode their arguments in order, each at its own
    parameter's type, and ignore those beyond the declared parameters.  The
    first argument that fails to decode, at whatever position, ends the
    call before the body runs: [sync_callback!] returns the [?] conversion
    of the [serde_json] error, [async_callback!] returns
    [Error::Runtime] of its text.  Once all parameters are decoded, both
    return the body's error through its [From] conversion, or the body's
    value serialised, a serialisation error becoming [Error::Runtime]. *)
Theorem callbacks_decode_in_order (cb : Callback) :
  (forall (n : nat) (args : list Value),
     has_arity J C E cb n ->
     sync_cb cb args = sync_cb cb (firstn n args) /\
     async_cb cb args = async_cb cb (firstn n args)) /\
  (forall (pre post : list Value) (A : Type) (fv : Value -> Result A J)
          (k : A -> Callback) (arg : Value) (e : J),
     consumes J C E cb pre (Param fv k) -> fv arg = Err e ->
     sync_cb cb (pre ++ arg :: post) = Err (json_error e) /\
     async_cb cb (pre ++ arg :: post) = Err (Error.Runtime (json_to_string e))) /\
  (forall (pre post : list Value) (r : Result C E),
     consumes J C E cb pre (Body r) ->
     (forall e, r = Err e ->
        sync_cb cb (pre ++ post) = Err (from_err e) /\
        async_cb cb (pre ++ post) = Err (from_err e)) /\
     (forall c m, r = Ok c -> try_from c = Err m ->
        sync_cb cb (pre ++ post) = Err (Error.Runtime m) /\
        async_cb cb (pre ++ post) = Err (Error.Runtime m)) /\
     (forall c v, r = Ok c -> try_from c = Ok v ->
        sync_cb cb (pre ++ post) = Ok v /\
        async_cb cb (pre ++ post) = Ok v)).
Proof.
  unfold sync_callback, async_callback.
  split; [|split].
  - intros n args Har. rewrite !(run_callback_firstn _ cb n args Har). split; reflexivity.
  - intros pre post A fv k arg e Hc He.
    rewrite !(run_callback_consumes _ cb _ pre (arg :: post) Hc). cbn. rewrite He.
    split; reflexivity.
  - intros pre post r Hc.
    rewrite !(run_callback_consumes _ cb _ pre post Hc). cbn.
    split; [|split].
    + intros e ->. split; reflexivity.
    + intros c m -> Hm. rewrite Hm. split; reflexivity.
    + intros c v -> Hv. rewrite Hv. split; reflexivity.
Qed.

End CallbackProperties.

Lemma callbacks_check_argument_count_witness :
  sync_callback string Value Error.t Error.JsonDecode (fun e => e) value_try_from
    pair_cb [VNumber 1] = Err invalid_arg_count /\
  async_callback string Value Error.t (fun s => s) (fun e => e) value_try_from
    pair_cb [VNumber 1] = Err invalid_arg_count /\
  invalid_arg_count = Error.Runtime "Invalid number of arguments".
Proof.
  apply (callbacks_check_argument_count string Value Error.t (fun s => s) Error.JsonDecode
           (fun e => e) value_try_from pair_cb
           (Param string_from_value (fun s => Body (Ok (VArray [VNumber 1; VString s]))))
           2 [VNumber 1]).
  - constructor. intros n. constructor. intros s. constructor.
  - cbn. lia.
  - econstructor; [reflexivity|]. constructor.
Defined.

(** The [test_callback] test, and decoding errors at the second position. *)
Example callbacks_run :
  sync_callback string Z Error.t Error.JsonDecode (fun e => e) i64_try_from
    add_cb [VNumber 5; VNumber 5] = Ok (VNumber 10) /\
  async_callback string Z Error.t (fun s => s) (fun e => e) i64_try_from
    add_cb [VNumber 5; VNumber 5; VString "extra"] = Ok (VNumber 10) /\
  sync_callback string Value Error.t Error.JsonDecode (fun e => e) value_try_from
    pair_cb [VNumber 1; VNumber 2]
    = Err (Error.JsonDecode "invalid type: expected a string") /\
  async_callback string Value Error.t (fun s => s) (fun e => e) value_try_from
    pair_cb [VNumber 1; VNumber 2]
    = Err (Error.Runtime "invalid type: expected a string").
Proof. repeat split; reflexivity. Qed.

(** ** X11 *)

(** X11: once the engine is constructed, [validate] never returns a
    [Runtime] or [JsError] error: loading ["test.js"] successfully gives
    [Ok(true)], a [Runtime] or [JsError] failure gives [Ok(false)], and any
    other error is returned.  An error constructing the engine is
    returned as it is, whatever its variant. *)
Theorem validate_classifies_load_errors (Rt Hd : Type)
    (load_modules : Module -> Rt -> Result Hd Error.t) (javascript : string) :
  (forall e : Error.t, validate Rt Hd (Err e) load_modules javascript = Err e) /\
  (forall rt : Rt,
     let r := validate Rt Hd (Ok rt) load_modules javascript in
     (r = Ok true <-> exists hd, load_modules (mkModule "test.js" javascript) rt = Ok hd) /\
     (forall msg, r <> Err (Error.Runtime msg) /\ r <> Err (Error.JsError msg)) /\
     (forall msg, load_modules (mkModule "test.js" javascript) rt = Err (Error.JsonDecode msg) ->
        r = Err (Error.JsonDecode msg))).
Proof.
  split; [intros e; reflexivity|].
  intros rt r. unfold r, validate.
  destruct (load_modules (mkModule "test.js" javascript) rt) as [hd|[msg'|msg'|msg']].
  - split; [split; eauto|split; [intros msg; split; discriminate|discriminate]].
  - split; [split; [discriminate|intros [hd Hd']; discriminate]|].
    split; [intros msg; split; discriminate|discriminate].
  - split; [split; [discriminate|intros [hd Hd']; discriminate]|].
    split; [intros msg; split; discriminate|discriminate].
  - split; [split; [discriminate|intros [hd Hd']; discriminate]|].
    split; [intros msg; split; discriminate|].
    intros msg Hm. injection Hm as ->. reflexivity.
Qed.


(** [str::trim] drops Unicode whitespace at both ends: here a leading
    U+00A0 and tab, and a trailing U+3000 and U+2003, keeping the inner
    U+3000. *)
Example trim_unicode_whitespace :
  trim (String (ascii_of_nat 194) (String (ascii_of_nat 160) (String (ascii_of_nat 9)
          (String.append "a" (String.append ideographic_space (String.append "b"
            (String.append ideographic_space
               (String (ascii_of_nat 226) (String (ascii_of_nat 128)
                  (String (ascii_of_nat 131) EmptyString))))))))))
  = String.append "a" (String.append ideographic_space "b").
Proof. vm_compute. reflexivity. Qed.
